(** * Logo-ParticleV2: the particle canvas, embedded and verified

    A shallow embedding of [components/ParticleCanvas.tsx] (the image
    sampler [initParticles] and the frame loop [animate]) together with the
    [Particle] record of [types.ts].

    JavaScript numbers are modelled through an interface, [JsNumber], with two
    instances: the real numbers (exact arithmetic, used for the algebraic
    and analytic properties) and binary64 primitive floats (what a JavaScript
    engine computes, used where NaN, signed zeros or rounding matter). Every
    function of the source is written once, over the interface. *)

From Stdlib Require Import ZArith QArith List String Ascii Bool Lia.
From Stdlib Require Import Reals Lra Psatz.
From Stdlib Require Import PrimFloat Uint63.
From Stdlib Require DecimalString.
Import ListNotations.

Set Implicit Arguments.

(** ** JavaScript numbers *)

(** The operations of the source on [number]: arithmetic, [Math.sqrt],
    [<], [===], the truthiness test behind [||], and [Math.PI]. *)
Class JsNumber (num : Type) : Type := {
  ofZ : Z -> num;
  add : num -> num -> num;
  sub : num -> num -> num;
  mul : num -> num -> num;
  div : num -> num -> num;
  sqrt : num -> num;
  ltb : num -> num -> bool;
  eqb : num -> num -> bool;
  toBoolean : num -> bool;
  PI : num
}.

Declare Scope js_scope.
Delimit Scope js_scope with js.
Notation "a + b" := (add a b) : js_scope.
Notation "a - b" := (sub a b) : js_scope.
Notation "a * b" := (mul a b) : js_scope.
Notation "a / b" := (div a b) : js_scope.
Notation "a <? b" := (ltb a b) : js_scope.
Notation "a === b" := (eqb a b) (at level 70, no associativity) : js_scope.
Notation "a !== b" := (negb (eqb a b)) (at level 70, no associativity) : js_scope.

(** A decimal literal of the source, [0.15] or [0.90]: the quotient of its
    digits by the power of ten. On binary64 the correctly rounded quotient of
    two small integers is the double nearest to the decimal, which is what
    the literal denotes. *)
Definition lit {num} `{JsNumber num} (q : Q) : num :=
  div (ofZ (Qnum q)) (ofZ (Zpos (Qden q))).

(** [number | null]. *)
Definition nullable (num : Type) : Type := option num.

(** [a || d] on a nullable number: [null], [0], [-0] and [NaN] are falsy. *)
Definition orElse {num} `{JsNumber num} (a : nullable num) (d : num) : num :=
  match a with
  | Some v => if toBoolean v then v else d
  | None => d
  end.

(** [null] used as an operand of arithmetic is coerced to [0]. *)
Definition toNumber {num} `{JsNumber num} (a : nullable num) : num :=
  match a with
  | Some v => v
  | None => ofZ 0
  end.

(** ** Data model ([types.ts]) *)

Record Particle (num : Type) : Type := mkParticle {
  x : num;
  y : num;
  originX : num;
  originY : num;
  color : string;
  size : num;
  vx : num;
  vy : num;
  density : num
}.

Arguments mkParticle {num}.
Arguments x {num}.
Arguments y {num}.
Arguments originX {num}.
Arguments originY {num}.
Arguments color {num}.
Arguments size {num}.
Arguments vx {num}.
Arguments vy {num}.
Arguments density {num}.

(** The object held by [targetRef] and [currentRef]:
    [{x: number | null, y: number | null}]. *)
Record Point (num : Type) : Type := mkPoint {
  ptX : nullable num;
  ptY : nullable num
}.

Arguments mkPoint {num}.
Arguments ptX {num}.
Arguments ptY {num}.

Definition nullPoint {num} : Point num := mkPoint None None.

(** The canvas element: its pixel dimensions (unsigned integers in the DOM)
    and whether [getContext('2d')] yields a context. *)
Record Canvas : Type := mkCanvas {
  width : Z;
  height : Z;
  context2d : bool
}.

(** The calls the frame makes on the 2D context, in order. *)
Inductive DrawCmd (num : Type) : Type :=
| ClearRect (cx cy w h : num)
| FillStyle (style : string)
| FillStyleGradient
| BeginPath
| Arc (cx cy r a0 a1 : num)
| Fill
| FillRect (rx ry w h : num)
| CreateRadialGradient (x0 y0 r0 x1 y1 r1 : num)
| AddColorStop (offset : num) (stop : string)
| GlobalCompositeOperation (mode : string).

Arguments ClearRect {num}.
Arguments FillStyle {num}.
Arguments FillStyleGradient {num}.
Arguments BeginPath {num}.
Arguments Arc {num}.
Arguments Fill {num}.
Arguments FillRect {num}.
Arguments CreateRadialGradient {num}.
Arguments AddColorStop {num}.
Arguments GlobalCompositeOperation {num}.

(** ** The frame loop ([animate]) *)

Section Animate.
Context {num : Type} `{JsNumber num}.
Local Open Scope js_scope.

(** [const lerp = (start, end, factor) => start + (end - start) * factor] *)
Definition lerp (start end_ factor : num) : num :=
  start + (end_ - start) * factor.

Definition smoothFactor : num := lit 0.15.

(** Lines 222-233: the smoothed point read by the physics pass. *)
Definition smooth (target current : Point num) : Point num :=
  match ptX target, ptY target with
  | Some tx, Some ty =>
      match ptX current with
      | None => mkPoint (Some tx) (Some ty)
      | Some cx =>
          mkPoint (Some (lerp cx tx smoothFactor))
                  (Some (lerp (toNumber (ptY current)) ty smoothFactor))
      end
  | _, _ => mkPoint None None
  end.

(** The position the physics pass measures from:
    [(currentRef.current.x || -1000, currentRef.current.y || -1000)]. *)
Definition sentinel : num := ofZ (-1000).
Definition effectiveX (current : Point num) : num := orElse (ptX current) sentinel.
Definition effectiveY (current : Point num) : num := orElse (ptY current) sentinel.

Definition homeX (centerX : num) (p : Particle num) : num := centerX + originX p.
Definition homeY (centerY : num) (p : Particle num) : num := centerY + originY p.

(** Lines 251-253: [dx], [dy] and [distance] of the physics loop. *)
Definition dxTo (current : Point num) (p : Particle num) : num :=
  effectiveX current - x p.
Definition dyTo (current : Point num) (p : Particle num) : num :=
  effectiveY current - y p.
Definition distance (current : Point num) (p : Particle num) : num :=
  let dx := dxTo current p in
  let dy := dyTo current p in
  sqrt (dx * dx + dy * dy).

(** Lines 249-284: the body of the physics loop for one particle. The
    particle object is mutated in place; the model returns the object
    after the body, fields that are not assigned carried over. *)
Definition physics (centerX centerY maxDistance : num)
    (current : Point num) (p : Particle num) : Particle num :=
  let dx := dxTo current p in
  let dy := dyTo current p in
  let distance := distance current p in
  let forceDirectionX := dx / distance in
  let forceDirectionY := dy / distance in
  let hX := homeX centerX p in
  let hY := homeY centerY p in
  let '(vx1, vy1) :=
    if distance <? maxDistance then
      let force := (maxDistance - distance) / maxDistance in
      let directionX := forceDirectionX * force * density p * ofZ 2 in
      let directionY := forceDirectionY * force * density p * ofZ 2 in
      (vx p - directionX, vy p - directionY)
    else
      ((if x p !== hX then vx p - (x p - hX) / ofZ 25 else vx p),
       (if y p !== hY then vy p - (y p - hY) / ofZ 25 else vy p)) in
  let vx2 := vx1 * lit 0.90 in
  let vy2 := vy1 * lit 0.90 in
  mkParticle (x p + vx2) (y p + vy2) (originX p) (originY p)
             (color p) (size p) vx2 vy2 (density p).

(** Lines 288-300: the draw calls for one particle. *)
Definition render (p : Particle num) : list (DrawCmd num) :=
  FillStyle (color p) ::
  (if size p <? ofZ 2 then
     [FillRect (x p - size p) (y p - size p) (size p * ofZ 2) (size p * ofZ 2)]
   else
     [BeginPath; Arc (x p) (y p) (size p) (ofZ 0) (PI * ofZ 2); Fill]).

(** Lines 303-318: the glow around the smoothed point. *)
Definition cursor (current : Point num) : list (DrawCmd num) :=
  match ptX current, ptY current with
  | Some cx, Some cy =>
      [CreateRadialGradient cx cy (ofZ 10) cx cy (ofZ 80);
       AddColorStop (ofZ 0) "rgba(255, 255, 255, 0.4)";
       AddColorStop (lit 0.5) "rgba(255, 255, 255, 0.1)";
       AddColorStop (ofZ 1) "rgba(0, 0, 0, 0)";
       GlobalCompositeOperation "lighter";
       FillStyleGradient;
       BeginPath;
       Arc cx cy (ofZ 80) (ofZ 0) (PI * ofZ 2);
       Fill;
       GlobalCompositeOperation "source-over"]
  | _, _ => []
  end.

(** What the component holds between frames: the canvas element (absent
    before mount), the refs, the installed particle array and the image
    remembered for re-sampling. [Image] is the decoded bitmap type. *)
Record World (Image : Type) : Type := mkWorld {
  canvas : option Canvas;
  targetRef : Point num;
  currentRef : Point num;
  radiusRef : num;
  particles : list (Particle num);
  imageRef : option Image
}.

Arguments mkWorld {Image}.
Arguments canvas {Image}.
Arguments targetRef {Image}.
Arguments currentRef {Image}.
Arguments radiusRef {Image}.
Arguments particles {Image}.
Arguments imageRef {Image}.

(** Lines 207-320: one frame. Returns the state after the frame and the
    draw calls issued. Scheduling of the next frame is left to the caller. *)
Definition animate {Image} (w : World Image) : World Image * list (DrawCmd num) :=
  match canvas w with
  | None => (w, [])
  | Some cv =>
      if negb (context2d cv) then (w, [])
      else
        let centerX := ofZ (width cv) / ofZ 2 in
        let centerY := ofZ (height cv) / ofZ 2 in
        let universeRadius := ofZ (Z.min (width cv) (height cv)) * lit 0.45 in
        let current := smooth (targetRef w) (currentRef w) in
        let background :=
          [ClearRect (ofZ 0) (ofZ 0) (ofZ (width cv)) (ofZ (height cv));
           FillStyle "#000000";
           BeginPath;
           Arc centerX centerY universeRadius (ofZ 0) (PI * ofZ 2);
           Fill] in
        let ps := map (physics centerX centerY (radiusRef w) current) (particles w) in
        (mkWorld (canvas w) (targetRef w) current (radiusRef w) ps (imageRef w),
         background ++ flat_map render ps ++ cursor current)
  end.

(** [setInteractionPoint], [handleMouseMove] (with the canvas-relative
    coordinates already computed) and [handleMouseLeave] write the target. *)
Definition setInteractionPoint {Image} (tx ty : nullable num) (w : World Image) : World Image :=
  mkWorld (canvas w) (mkPoint tx ty) (currentRef w) (radiusRef w)
          (particles w) (imageRef w).


(** The immediate part of [handleResize]: the canvas takes the window's
    inner size. The debounced re-sampling is [resizeTimeout] below. *)
Definition handleResize {Image} (innerWidth innerHeight : Z) (w : World Image) : World Image :=
  match canvas w with
  | None => w
  | Some cv =>
      mkWorld (Some (mkCanvas innerWidth innerHeight (context2d cv)))
              (targetRef w) (currentRef w) (radiusRef w) (particles w) (imageRef w)
  end.

(** The refs as [useRef] and [useState] initialise them (lines 9-20). *)
Definition mount {Image} (cv : option Canvas) : World Image :=
  mkWorld cv nullPoint nullPoint (ofZ 320) [] None.

(** What can happen to an installed particle set between two samplings: a
    frame, a resize of the window, a write of the interaction target. *)
Inductive Event : Type :=
| Frame
| Resize (innerWidth innerHeight : Z)
| SetTarget (tx ty : nullable num).

Definition handle {Image} (w : World Image) (e : Event) : World Image :=
  match e with
  | Frame => fst (animate w)
  | Resize innerWidth innerHeight => handleResize innerWidth innerHeight w
  | SetTarget tx ty => setInteractionPoint tx ty w
  end.

Definition run {Image} (es : list Event) (w : World Image) : World Image :=
  fold_left handle es w.

(** The fields a particle is created with and the loop only reads. *)
Definition created (p : Particle num) : num * num * string * num * num :=
  (originX p, originY p, color p, size p, density p).

End Animate.

Arguments mkWorld {num Image}.
Arguments canvas {num Image}.
Arguments targetRef {num Image}.
Arguments currentRef {num Image}.
Arguments radiusRef {num Image}.
Arguments particles {num Image}.
Arguments imageRef {num Image}.
Arguments Event : clear implicits.
Arguments Frame {num}.

(** ** The image sampler ([initParticles]) *)

(** The rest of [Math] used by the sampler. [Math.floor] is only applied to
    finite values here; its result is an integer and is kept as one. *)
Class JsMath (num : Type) `{JsNumber num} : Type := {
  floor : num -> Z;
  cos : num -> num;
  sin : num -> num
}.

(** Template-literal conversion of an integer-valued number. *)
Definition toString (v : Z) : string :=
  DecimalString.NilZero.string_of_int (Z.to_int v).

(** The loop variable of [for (let i = 0; i < bound; i += step)], as the
    list of the values it takes. *)
Fixpoint strideFrom (fuel : nat) (i step bound : Z) : list Z :=
  match fuel with
  | O => []
  | S fuel' =>
      if (i <? bound)%Z then i :: strideFrom fuel' (i + step)%Z step bound else []
  end.

Definition stride (step bound : Z) : list Z :=
  strideFrom (Z.to_nat bound) 0%Z step bound.


Section Sampler.
Context {num : Type} `{JsMath num}.
Local Open Scope js_scope.

(** The decoded bitmap, with [img.width] and [img.height]. *)
Variable Image : Type.
Variable imgWidth imgHeight : Image -> Z.

(** The browser's rasteriser: [data] of
    [ctx.getImageData(0, 0, width, height)] after
    [ctx.drawImage(img, startX, startY, drawWidth, drawHeight)] on a fresh
    canvas of the given size. *)
Variable getImageData : Image -> num -> num -> num -> num -> Z -> Z -> list Z.

(** The values [Math.random()] returns, by call number. *)
Variable random : nat -> num.

(** The sampler threads two pieces of state: how many random numbers were
    drawn, and the array [newParticles]. *)
Record SamplerState : Type := mkSamplerState {
  calls : nat;
  newParticles : list (Particle num)
}.

Definition Sampler (A : Type) : Type := SamplerState -> A * SamplerState.

Definition ret {A} (a : A) : Sampler A := fun s => (a, s).

Definition bind {A B} (c : Sampler A) (k : A -> Sampler B) : Sampler B :=
  fun s => let '(a, s') := c s in k a s'.

Local Notation "v <- c ;; k" := (bind c (fun v => k))
  (at level 61, c at next level, right associativity).
Local Notation "c ;;; k" := (bind c (fun _ => k))
  (at level 61, right associativity).

Definition mathRandom : Sampler num :=
  fun s => (random (calls s), mkSamplerState (S (calls s)) (newParticles s)).

Definition push (p : Particle num) : Sampler unit :=
  fun s => (tt, mkSamplerState (calls s) (newParticles s ++ [p])).

Fixpoint forEach {A} (l : list A) (body : A -> Sampler unit) : Sampler unit :=
  match l with
  | [] => ret tt
  | a :: l' => body a ;;; forEach l' body
  end.

Fixpoint times (n : nat) (body : Sampler unit) : Sampler unit :=
  match n with
  | O => ret tt
  | S n' => body ;;; times n' body
  end.

Definition rgb (val : Z) : string :=
  "rgb(" ++ toString val ++ ", " ++ toString val ++ ", " ++ toString val ++ ")".

(** Lines 53-56. *)
Definition centerOf (extent : Z) : num := ofZ extent / ofZ 2.
Definition universeRadiusOf (width height : Z) : num :=
  ofZ (Z.min width height) * lit 0.45.

(** Lines 59-70: where the bitmap is drawn, as
    [(startX, startY, drawWidth, drawHeight)]. *)
Definition placement (img : Image) (width height : Z) : num * num * num * num :=
  let aspectRatio := ofZ (imgWidth img) / ofZ (imgHeight img) in
  let drawWidth := ofZ width * ofZ 2 in
  let drawHeight := drawWidth / aspectRatio in
  let '(drawWidth, drawHeight) :=
    if ofZ height * ofZ 2 <? drawHeight
    then ((ofZ height * ofZ 2) * aspectRatio, ofZ height * ofZ 2)
    else (drawWidth, drawHeight) in
  let startX := (ofZ width - drawWidth) / lit 1.8 in
  let startY := (ofZ height - drawHeight) / lit 2.5 in
  (startX, startY, drawWidth, drawHeight).

(** Lines 72-75: the pixels read back after drawing the bitmap there. *)
Definition imageDataOf (img : Image) (width height : Z) : list Z :=
  let '(startX, startY, drawWidth, drawHeight) := placement img width height in
  getImageData img startX startY drawWidth drawHeight width height.

(** Lines 79-81. *)
Definition ambientCount (width height : Z) : Z :=
  let universeRadius := universeRadiusOf width height in
  let sphereArea := PI * universeRadius * universeRadius in
  let targetCount := floor (sphereArea / ofZ 30) in
  Z.min targetCount 20000.

(** Lines 84-119: the body of the ambient loop. *)
Definition ambientParticle (width height : Z) : Sampler unit :=
  let centerX := centerOf width in
  let centerY := centerOf height in
  let universeRadius := universeRadiusOf width height in
  u1 <- mathRandom ;;
  let angle := u1 * PI * ofZ 2 in
  u2 <- mathRandom ;;
  let r := sqrt u2 * universeRadius in
  let px := centerX + r * cos angle in
  let py := centerY + r * sin angle in
  let oX := px - centerX in
  let oY := py - centerY in
  u3 <- mathRandom ;;
  let isStar := u3 <? lit 0.005 in
  u4 <- mathRandom ;;
  u5 <- mathRandom ;;
  let '(col, sz) :=
    if isStar
    then (rgb (floor (u4 * ofZ 100 + ofZ 155)), u5 * lit 1.5 + lit 0.5)
    else (rgb (floor (u4 * ofZ 30 + ofZ 10)), u5 * ofZ 2 + lit 0.5) in
  u6 <- mathRandom ;;
  push (mkParticle px py oX oY col sz (ofZ 0) (ofZ 0) (u6 * ofZ 20 + ofZ 1)).

(** Lines 83-120. The loop counter runs over the integers below
    [ambientCount]. *)
Definition ambientPhase (width height : Z) : Sampler unit :=
  times (Z.to_nat (ambientCount width height)) (ambientParticle width height).

(** Line 123. *)
Definition stepOf (width : Z) : Z := if (width <? 768)%Z then 3%Z else 2%Z.

(** Lines 130-136: [data[index + 3] > 128], false when the read is out of
    range ([undefined > 128]). *)
Definition pixelIndex (width pX pY : Z) : Z := ((pY * width + pX) * 4)%Z.

Definition alphaAt (data : list Z) (index : Z) : option Z :=
  if (index + 3 <? 0)%Z then None else nth_error data (Z.to_nat (index + 3)).

Definition opaque (data : list Z) (width pX pY : Z) : bool :=
  match alphaAt data (pixelIndex width pX pY) with
  | Some alpha => (128 <? alpha)%Z
  | None => false
  end.

(** Lines 127-154: the body of the image loops at grid position
    [(gx, gy)]. The loop variables are integers, so [Math.floor] leaves them
    as they are. *)
Definition imageParticle (data : list Z) (width height : Z) (gx gy : Z) : Sampler unit :=
  let centerX := centerOf width in
  let centerY := centerOf height in
  let pX := gx in
  let pY := gy in
  let index := pixelIndex width pX pY in
  if (Z.of_nat (List.length data) <=? index)%Z then ret tt
  else if opaque data width pX pY then
    let oX := ofZ pX - centerX in
    let oY := ofZ pY - centerY in
    u1 <- mathRandom ;;
    u2 <- mathRandom ;;
    u3 <- mathRandom ;;
    u4 <- mathRandom ;;
    let sz := if u3 <? lit 0.3 then u4 * lit 0.8 + lit 0.6 else u4 * lit 0.4 + lit 0.2 in
    u5 <- mathRandom ;;
    push (mkParticle (u1 * ofZ width) (u2 * ofZ height) oX oY "rgb(255, 255, 255)"
                     sz (ofZ 0) (ofZ 0) (u5 * ofZ 30 + ofZ 1))
  else ret tt.

(** Lines 123-156. *)
Definition imagePhase (data : list Z) (width height : Z) : Sampler unit :=
  let step := stepOf width in
  forEach (stride step height) (fun gy =>
    forEach (stride step width) (fun gx =>
      imageParticle data width height gx gy)).

(** Lines 43-159. [offscreen] tells whether
    [tempCanvas.getContext('2d')] yields a context; [drawn] is the number of
    random values drawn before the call. Returns the state of the component
    after the call and the number of random values drawn. *)
Definition initParticles (img : Image) (width height : Z) (offscreen : bool)
    (drawn : nat) (w : World (num:=num) Image) : World (num:=num) Image * nat :=
  let w1 := mkWorld (canvas w) (targetRef w) (currentRef w) (radiusRef w)
                    (particles w) (Some img) in
  if negb offscreen then (w1, drawn)
  else
    let data := imageDataOf img width height in
    let '(_, s) :=
      (ambientPhase width height ;;; imagePhase data width height)
        (mkSamplerState drawn []) in
    (mkWorld (canvas w1) (targetRef w1) (currentRef w1) (radiusRef w1)
             (newParticles s) (imageRef w1),
     calls s).

(** [img.onload] (lines 169-173) and the timer armed by [handleResize]
    (lines 189-193). *)
Definition onload (img : Image) (offscreen : bool) (drawn : nat)
    (w : World (num:=num) Image) : World (num:=num) Image * nat :=
  match canvas w with
  | Some cv => initParticles img (width cv) (height cv) offscreen drawn w
  | None => (w, drawn)
  end.

Definition resizeTimeout (offscreen : bool) (drawn : nat)
    (w : World (num:=num) Image) : World (num:=num) Image * nat :=
  match imageRef w, canvas w with
  | Some img, Some cv => initParticles img (width cv) (height cv) offscreen drawn w
  | _, _ => (w, drawn)
  end.

End Sampler.

(** ** The two number models *)

Module RealNum.

Definition Rltb (a b : R) : bool := if Rlt_dec a b then true else false.
Definition Reqb (a b : R) : bool := if Req_dec_T a b then true else false.

#[export] Instance JsNumber_R : JsNumber R := {|
  ofZ := IZR;
  add := Rplus;
  sub := Rminus;
  mul := Rmult;
  div := Rdiv;
  sqrt := R_sqrt.sqrt;
  ltb := Rltb;
  eqb := Reqb;
  toBoolean := fun v => negb (Reqb v 0%R);
  PI := Rtrigo1.PI
|}.

#[export] Instance JsMath_R : @JsMath R JsNumber_R := {|
  floor := Zfloor;
  cos := Rtrigo_def.cos;
  sin := Rtrigo_def.sin
|}.

End RealNum.

Module Float64.

(** Integers of the source are far below 2^53, where the conversion is
    exact. *)
Definition float_of_Z (z : Z) : float :=
  match z with
  | Z0 => PrimFloat.zero
  | Zpos _ => PrimFloat.of_uint63 (Uint63.of_Z z)
  | Zneg q => PrimFloat.opp (PrimFloat.of_uint63 (Uint63.of_Z (Zpos q)))
  end.

#[export] Instance JsNumber_float : JsNumber float := {|
  ofZ := float_of_Z;
  add := PrimFloat.add;
  sub := PrimFloat.sub;
  mul := PrimFloat.mul;
  div := PrimFloat.div;
  sqrt := PrimFloat.sqrt;
  ltb := PrimFloat.ltb;
  eqb := PrimFloat.eqb;
  toBoolean := fun v => negb (PrimFloat.eqb v PrimFloat.zero || PrimFloat.is_nan v);
  PI := 0x1.921fb54442d18p+1%float
|}.

Definition finite (v : float) : bool :=
  negb (PrimFloat.is_nan v || PrimFloat.is_infinity v).

End Float64.

Import RealNum Float64.


(** ** The physics step in the words of the specification

    Over the reals. [repelStep] and [springStep] are the two cases of the
    specification's physics pass, each followed by the damping and the Euler
    step; they are compared with [physics] below. *)

Section RealSpec.
Local Open Scope R_scope.

Definition damping : R := 0.90.
Definition interactionRadius : R := 320.

(** Velocity minus an acceleration, then damping, then position plus
    velocity. *)
Definition integrate (ax ay : R) (p : Particle R) : Particle R :=
  let vx' := (vx p - ax) * damping in
  let vy' := (vy p - ay) * damping in
  mkParticle (x p + vx') (y p + vy') (originX p) (originY p)
             (color p) (size p) vx' vy' (density p).

(** Inside the radius: the unit direction toward the point, scaled by
    [((radius - distance) / radius) * density * 2.0]. *)
Definition repelStep (current : Point R) (p : Particle R) : Particle R :=
  let d := distance current p in
  let magnitude := (interactionRadius - d) / interactionRadius * density p * 2 in
  integrate (dxTo current p / d * magnitude) (dyTo current p / d * magnitude) p.

(** Outside the radius: [(position - home) / 25] per axis. *)
Definition springStep (centerX centerY : R) (p : Particle R) : Particle R :=
  integrate ((x p - homeX centerX p) / 25) ((y p - homeY centerY p) / 25) p.






End RealSpec.

(** ** Concrete states used by the examples *)

(** A pointer at (100, 100) and an image particle sitting exactly on it, on
    an 800 x 600 canvas, in binary64. *)
Definition pointerAt100 : Point float :=
  mkPoint (Some (ofZ 100)) (Some (ofZ 100)).

Definition onPointer : Particle float :=
  mkParticle (ofZ 100) (ofZ 100) (ofZ (-300)) (ofZ (-200)) "rgb(255, 255, 255)"
             (lit 0.5) (ofZ 0) (ofZ 0) (ofZ 1).



(** A particle of an 800 x 600 canvas, displaced 100 pixels to the right of
    its home (400, 300). *)
Definition displacedParticle : Particle R :=
  mkParticle 500%R 300%R 0%R 0%R "rgb(255, 255, 255)" 0.5%R 0%R 0%R 1%R.



(** A mounted 800 x 600 component before any bitmap has loaded, and a
    500 x 500 bitmap whose rasterisation is left empty. *)
Definition freshWorld : World (num:=R) unit :=
  mount (Some (mkCanvas 800 600 true)).

Definition sampleWithoutContext : World (num:=R) unit * nat :=
  initParticles (fun _ => 500%Z) (fun _ => 500%Z)
                (fun _ _ _ _ _ _ _ => []) (fun _ => 0%R)
                tt 800 600 false 0 freshWorld.

(** A particle lying exactly on the off-screen position, in binary64, and
    what one frame without interaction point makes of it. *)
Definition atSentinel : Particle float :=
  mkParticle (ofZ (-1000)) (ofZ (-1000)) (ofZ 0) (ofZ 0) "rgb(255, 255, 255)"
             (lit 0.5) (ofZ 0) (ofZ 0) (ofZ 1).

Definition lostParticle : Particle float :=
  mkParticle PrimFloat.nan PrimFloat.nan (ofZ 0) (ofZ 0) "rgb(255, 255, 255)"
             (lit 0.5) PrimFloat.nan PrimFloat.nan (ofZ 1).

(** ** The rest of the component and its callers *)

Section Shell.
Context {num : Type} `{JsNumber num}.
Local Open Scope js_scope.

(** [n] frames under a target that does not change: what [currentRef]
    holds after them. *)
Definition smoothFrames (target : Point num) (n : nat) (current : Point num) : Point num :=
  Nat.iter n (smooth target) current.

(** Both coordinates null, or both numbers. *)
Definition asUnit (pt : Point num) : bool :=
  match ptX pt, ptY pt with
  | Some _, Some _ => true
  | None, None => true
  | _, _ => false
  end.



(** [HandTracker.tsx]: a landmark of the hand model; only [x] and [y] are
    read. *)
Record Landmark : Type := mkLandmark {
  lmX : num;
  lmY : num
}.

(** What one run of [predictWebcam] does to its parent: nothing, a call of
    [onHandMove], or a TypeError (reading [x] of [undefined]). *)
Inductive Report : Type :=
| Silent
| OnHandMove (hx hy : nullable num)
| TypeError.

(** [predictWebcam], lines 86-113 of [HandTracker.tsx]. [refs] tells
    whether the video element and the landmarker are both there;
    [landmarks] is [results.landmarks] of the detection. Returns the report
    and whether the next run was requested. *)
Definition predictWebcam (refs : bool) (videoWidth videoHeight : Z)
    (landmarks : option (list (list Landmark))) (innerWidth innerHeight : Z)
    : Report * bool :=
  if negb refs then (Silent, false)
  else if ((0 <? videoWidth)%Z && (0 <? videoHeight)%Z)%bool then
    match landmarks with
    | Some (hand :: _) =>
        match nth_error hand 8 with
        | Some indexTip =>
            let hx := (ofZ 1 - lmX indexTip) * ofZ innerWidth in
            let hy := lmY indexTip * ofZ innerHeight in
            (OnHandMove (Some hx) (Some hy), true)
        | None => (TypeError, false)
        end
    | _ => (OnHandMove None None, true)
    end
  else (Silent, true).



End Shell.

Arguments Landmark : clear implicits.
Arguments Report : clear implicits.
Arguments Silent {num}.
Arguments TypeError {num}.


(** [downloadSnapshot], lines 24-35: the name of the downloaded file, from
    the text [new Date().toISOString()] returns. *)
Fixpoint replaceColonDot (s : string) : string :=
  match s with
  | EmptyString => EmptyString
  | String c s' =>
      String (if (Ascii.eqb c ":"%char || Ascii.eqb c "."%char)%bool then "-"%char else c)
             (replaceColonDot s')
  end.

Definition snapshotStem (iso : string) : string :=
  "particle-universe-" ++ replaceColonDot iso.

Definition snapshotName (iso : string) : string := snapshotStem iso ++ ".png".

(** The link that is clicked, as [(download, href)]; nothing without a
    canvas. [dataURL] is [canvas.toDataURL('image/png')]. *)
Definition downloadSnapshot (cv : option Canvas) (iso dataURL : string)
    : option (string * string) :=
  match cv with
  | None => None
  | Some _ => Some (snapshotName iso, dataURL)
  end.

Fixpoint occurrences (c : Ascii.ascii) (s : string) : nat :=
  match s with
  | EmptyString => O
  | String c' s' => ((if Ascii.eqb c' c then 1 else 0) + occurrences c s')%nat
  end.

(** The timers of the window: the armed ones, as (id, delay in ms), and the
    next id to hand out. Ids are positive. *)
Record Timers : Type := mkTimers {
  armed : list (nat * Z);
  nextId : nat
}.

Definition setTimeout (delay : Z) (t : Timers) : nat * Timers :=
  (nextId t, mkTimers (armed t ++ [(nextId t, delay)]) (S (nextId t))).

Definition clearTimeout (id : nat) (t : Timers) : Timers :=
  mkTimers (filter (fun e => negb (Nat.eqb (fst e) id)) (armed t)) (nextId t).

Definition isArmed (id : nat) (t : Timers) : bool :=
  existsb (fun e => Nat.eqb (fst e) id) (armed t).

Section Debounce.
Context {num : Type} `{JsMath num}.
Variable Image : Type.
Variable imgWidth imgHeight : Image -> Z.
Variable getImageData : Image -> num -> num -> num -> num -> Z -> Z -> list Z.
Variable random : nat -> num.

(** The component with what the resize effect adds: the timer ref, the
    window's timers and the count of random values drawn so far. *)
Record Component : Type := mkComponent {
  world : World (num:=num) Image;
  drawn : nat;
  resizeTimeoutRef : option nat;
  timers : Timers
}.

(** Lines 178-195: [handleResize] in full. *)
Definition onResize (innerWidth innerHeight : Z) (c : Component) : Component :=
  match canvas (world c) with
  | None => c
  | Some _ =>
      let w' := handleResize innerWidth innerHeight (world c) in
      let cleared :=
        match resizeTimeoutRef c with
        | Some id => if Nat.eqb id 0 then timers c else clearTimeout id (timers c)
        | None => timers c
        end in
      let '(id, t') := setTimeout 200 cleared in
      mkComponent w' (drawn c) (Some id) t'
  end.

(** The window runs the callback of an armed timer, lines 189-193, and
    forgets the timer. [offscreen] tells whether the sampler gets its
    context. *)
Definition onTimer (id : nat) (offscreen : bool) (c : Component) : Component :=
  if isArmed id (timers c) then
    let '(w', drawn') :=
      resizeTimeout imgWidth imgHeight getImageData random offscreen (drawn c) (world c) in
    mkComponent w' drawn' (resizeTimeoutRef c) (clearTimeout id (timers c))
  else c.

(** Lines 197-198: the effect runs [handleResize] once when it mounts. *)
Definition mountResize (cv : option Canvas) (innerWidth innerHeight : Z) : Component :=
  onResize innerWidth innerHeight (mkComponent (mount cv) 0 None (mkTimers [] 1)).

Inductive Happening : Type :=
| WindowResize (innerWidth innerHeight : Z)
| TimerDue (id : nat) (offscreen : bool)
| CanvasEvent (e : Event num).

Definition happen (c : Component) (h : Happening) : Component :=
  match h with
  | WindowResize innerWidth innerHeight => onResize innerWidth innerHeight c
  | TimerDue id offscreen => onTimer id offscreen c
  | CanvasEvent e =>
      mkComponent (handle (world c) e) (drawn c) (resizeTimeoutRef c) (timers c)
  end.

Definition happenAll (hs : list Happening) (c : Component) : Component :=
  fold_left happen hs c.

(** What every reachable state of the resize effect satisfies: a canvas is
    mounted, ids are positive, and the only timer that can be armed is the
    one the ref holds, with a delay of 200 ms. *)
Definition debounced (c : Component) : Prop :=
  canvas (world c) <> None /\
  (1 <= nextId (timers c))%nat /\
  (armed (timers c) = [] \/
   exists id, id <> 0%nat /\ resizeTimeoutRef c = Some id /\
              armed (timers c) = [(id, 200%Z)]).

End Debounce.

Arguments mountResize {num H Image}.

(** ** Properties of the frame loop *)

Section FrameProperties.
Local Open Scope R_scope.

Lemma Rltb_true (a b : R) : a < b -> Rltb a b = true.
Proof. intros Hab. unfold Rltb. destruct (Rlt_dec a b); [reflexivity | contradiction]. Qed.

Lemma Rltb_false (a b : R) : b <= a -> Rltb a b = false.
Proof. intros Hab. unfold Rltb. destruct (Rlt_dec a b); [lra | reflexivity]. Qed.

(** The guards [p.x !== homeX] and [p.y !== homeY] change nothing over the
    reals: when the coordinate is at home the skipped term is zero. *)
Lemma guarded_spring (pos home v : R) :
  (if negb (Reqb pos home) then v - (pos - home) / 25 else v) = v - (pos - home) / 25.
Proof.
  unfold Reqb. destruct (Req_dec_T pos home) as [-> | Hne]; simpl; [lra | reflexivity].
Qed.

(** Outside the radius the loop body is the spring step. *)
Lemma physics_outside (cX cY : R) (cur : Point R) (p : Particle R) :
  interactionRadius <= distance cur p ->
  physics cX cY interactionRadius cur p = springStep cX cY p.
Proof.
  intros Hfar. unfold physics.
  replace (ltb (distance cur p) interactionRadius) with false
    by (symmetry; apply Rltb_false; exact Hfar).
  cbn [eqb add sub mul div ofZ lit Qnum Qden JsNumber_R].
  rewrite !guarded_spring. unfold springStep, integrate, damping.
  f_equal; unfold Rdiv; ring.
Qed.

(** Inside the radius it is the repulsion step. *)
Lemma physics_inside (cX cY : R) (cur : Point R) (p : Particle R) :
  distance cur p < interactionRadius ->
  physics cX cY interactionRadius cur p = repelStep cur p.
Proof.
  intros Hnear. unfold physics.
  replace (ltb (distance cur p) interactionRadius) with true
    by (symmetry; apply Rltb_true; exact Hnear).
  unfold repelStep, integrate, damping, interactionRadius.
  cbn [lit Qnum Qden ofZ add sub mul div JsNumber_R].
  f_equal; set (q := _ / distance cur p); lra.
Qed.


Lemma sqrt_above (a s : R) : 0 <= a -> a * a < s -> a < R_sqrt.sqrt s.
Proof.
  intros Ha Hs. rewrite <- (sqrt_square a Ha) at 1.
  apply sqrt_lt_1_alt. split; [nra | exact Hs].
Qed.


Lemma null_effective :
  effectiveX (num:=R) nullPoint = -1000 /\ effectiveY (num:=R) nullPoint = -1000.
Proof. split; reflexivity. Qed.

Lemma null_distance (p : Particle R) :
  distance nullPoint p =
  R_sqrt.sqrt ((-1000 - x p) * (-1000 - x p) + (-1000 - y p) * (-1000 - y p)).
Proof. reflexivity. Qed.

(** C6. With the smoothed point null the physics step measures from
    (-1000, -1000); a particle at non-negative coordinates is farther than
    the radius 320 from it, so it takes the spring branch, not the
    repulsion branch. *)
Theorem sentinel_never_repels (cX cY : R) (p : Particle R) :
  0 <= x p -> 0 <= y p ->
  effectiveX (num:=R) nullPoint = -1000 /\
  effectiveY (num:=R) nullPoint = -1000 /\
  320 < distance nullPoint p /\
  physics cX cY 320 nullPoint p = springStep cX cY p.
Proof.
  intros Hx Hy.
  assert (Hfar : 320 < distance nullPoint p).
  { rewrite null_distance. apply sqrt_above; nra. }
  repeat split; try reflexivity; try exact Hfar.
  apply physics_outside. unfold interactionRadius. lra.
Qed.

Lemma sentinel_never_repels_witness :
  320 < distance nullPoint displacedParticle /\
  physics 400 300 320 nullPoint displacedParticle = springStep 400 300 displacedParticle.
Proof.
  assert (Hx : 0 <= x displacedParticle) by (simpl; lra).
  assert (Hy : 0 <= y displacedParticle) by (simpl; lra).
  destruct (sentinel_never_repels 400 300 displacedParticle Hx Hy) as (_ & _ & Hd & Hs).
  split; [exact Hd | exact Hs].
Defined.

(** C4. Smoothing: a null target (either coordinate null, so (null, null)
    in particular) makes the current point (null, null) on that frame; a
    null current point takes a non-null target as it is; otherwise each
    coordinate becomes current + (target - current) * 0.15. With the target
    at (100, 100) and the current point at (0, 0), one frame gives (15, 15),
    over the reals and in binary64 alike. *)
Theorem smoothing_rule :
  (forall (ty : nullable R) (cur : Point R), smooth (mkPoint None ty) cur = nullPoint) /\
  (forall (tx : nullable R) (cur : Point R), smooth (mkPoint tx None) cur = nullPoint) /\
  (forall (tx ty : R) (cy : nullable R),
     smooth (mkPoint (Some tx) (Some ty)) (mkPoint None cy) = mkPoint (Some tx) (Some ty)) /\
  (forall tx ty cx cy : R,
     smooth (mkPoint (Some tx) (Some ty)) (mkPoint (Some cx) (Some cy)) =
     mkPoint (Some (cx + (tx - cx) * 0.15)) (Some (cy + (ty - cy) * 0.15))) /\
  smooth (mkPoint (Some 100) (Some 100)) (mkPoint (Some 0) (Some 0)) =
    mkPoint (Some 15) (Some 15) /\
  smooth (num:=float) (mkPoint (Some (ofZ 100)) (Some (ofZ 100)))
                      (mkPoint (Some (ofZ 0)) (Some (ofZ 0))) =
    mkPoint (Some (ofZ 15)) (Some (ofZ 15)).
Proof.
  split; [reflexivity |].
  split; [intros [tx |] cur; reflexivity |].
  split; [reflexivity |].
  split; [| split].
  - intros tx ty cx cy.
    cbn [smooth ptX ptY toNumber lerp smoothFactor lit Qnum Qden
         add sub mul div ofZ JsNumber_R].
    f_equal; f_equal; lra.
  - cbn [smooth ptX ptY toNumber lerp smoothFactor lit Qnum Qden
         add sub mul div ofZ JsNumber_R].
    f_equal; f_equal; lra.
  - vm_compute. reflexivity.
Qed.

(** C10. A smoothed point with a coordinate equal to 0 is not null, yet the
    physics step measures from -1000 on that axis: the step is the one of a
    point whose coordinate is -1000, not 0. In binary64 the same holds for
    both zeros. *)
Theorem zero_coordinate_replaced :
  (forall cy : nullable R, effectiveX (mkPoint (Some 0) cy) = -1000) /\
  (forall cx : nullable R, effectiveY (mkPoint cx (Some 0)) = -1000) /\
  (forall (cX cY r : R) (cy : nullable R) (p : Particle R),
     physics cX cY r (mkPoint (Some 0) cy) p =
     physics cX cY r (mkPoint (Some (-1000)) cy) p) /\
  (forall (cX cY r : R) (cx : nullable R) (p : Particle R),
     physics cX cY r (mkPoint cx (Some 0)) p =
     physics cX cY r (mkPoint cx (Some (-1000))) p) /\
  (forall cy : nullable float,
     effectiveX (mkPoint (Some PrimFloat.zero) cy) = ofZ (-1000) /\
     effectiveX (mkPoint (Some PrimFloat.neg_zero) cy) = ofZ (-1000)) /\
  (forall cx : nullable float,
     effectiveY (mkPoint cx (Some PrimFloat.zero)) = ofZ (-1000) /\
     effectiveY (mkPoint cx (Some PrimFloat.neg_zero)) = ofZ (-1000)).
Proof.
  assert (HX : forall cy : nullable R, effectiveX (mkPoint (Some 0) cy) = -1000).
  { intros cy. cbn [effectiveX orElse ptX toBoolean sentinel ofZ JsNumber_R].
    unfold Reqb. destruct (Req_dec_T 0 0); [reflexivity | lra]. }
  assert (HY : forall cx : nullable R, effectiveY (mkPoint cx (Some 0)) = -1000).
  { intros cx. cbn [effectiveY orElse ptY toBoolean sentinel ofZ JsNumber_R].
    unfold Reqb. destruct (Req_dec_T 0 0); [reflexivity | lra]. }
  assert (HX' : forall cy : nullable R, effectiveX (mkPoint (Some (-1000)) cy) = -1000).
  { intros cy. cbn [effectiveX orElse ptX toBoolean sentinel ofZ JsNumber_R].
    unfold Reqb. destruct (Req_dec_T (-1000) 0); reflexivity. }
  assert (HY' : forall cx : nullable R, effectiveY (mkPoint cx (Some (-1000))) = -1000).
  { intros cx. cbn [effectiveY orElse ptY toBoolean sentinel ofZ JsNumber_R].
    unfold Reqb. destruct (Req_dec_T (-1000) 0); reflexivity. }
  repeat split.
  - exact HX.
  - exact HY.
  - intros cX cY r cy p. unfold physics, distance, dxTo, dyTo.
    rewrite HX, HX'. reflexivity.
  - intros cX cY r cx p. unfold physics, distance, dxTo, dyTo.
    rewrite HY, HY'. reflexivity.
Qed.

End FrameProperties.

Section Float64Properties.

(** The decimal literals of the frame loop, as [lit] builds them, are the
    doubles a JavaScript engine reads them as. *)
Lemma lit_is_literal :
  lit 0.15 = 0x1.3333333333333p-3%float /\
  lit 0.90 = 0x1.ccccccccccccdp-1%float /\
  lit 0.45 = 0x1.ccccccccccccdp-2%float /\
  lit 0.5 = 0x1p-1%float.
Proof. vm_compute. repeat split. Qed.

(** C5. A particle sitting exactly on the effective interaction position
    has distance 0 to it; the step divides by that distance, the force
    direction is 0 / 0 = NaN, and the particle leaves the step with NaN
    velocity (and NaN position). *)
Theorem zero_distance_nan :
  x onPointer = effectiveX pointerAt100 /\
  y onPointer = effectiveY pointerAt100 /\
  distance pointerAt100 onPointer = PrimFloat.zero /\
  PrimFloat.is_nan
    (PrimFloat.div (dxTo pointerAt100 onPointer) (distance pointerAt100 onPointer)) = true /\
  PrimFloat.is_nan
    (vx (physics (ofZ 400) (ofZ 300) (ofZ 320) pointerAt100 onPointer)) = true /\
  PrimFloat.is_nan
    (vy (physics (ofZ 400) (ofZ 300) (ofZ 320) pointerAt100 onPointer)) = true /\
  Float64.finite
    (x (physics (ofZ 400) (ofZ 300) (ofZ 320) pointerAt100 onPointer)) = false.
Proof. vm_compute. repeat split. Qed.

End Float64Properties.

Section Immutability.
Context {num : Type} `{JsNumber num} {Image : Type}.

Lemma physics_created (cX cY r : num) (cur : Point num) (p : Particle num) :
  created (physics cX cY r cur p) = created p.
Proof.
  unfold created, physics.
  destruct (ltb (distance cur p) r); reflexivity.
Qed.

Lemma animate_particles (w : World Image) :
  map created (particles (fst (animate w))) = map created (particles w).
Proof.
  unfold animate. destruct (canvas w) as [cv |]; [| reflexivity].
  destruct (context2d cv); [| reflexivity].
  cbn [negb fst particles]. rewrite map_map.
  apply map_ext. intros p. apply physics_created.
Qed.

Lemma handle_created (w : World Image) (e : Event num) :
  map created (particles (handle w e)) = map created (particles w).
Proof.
  destruct e as [| iw ih | tx ty]; cbn [handle].
  - apply animate_particles.
  - unfold handleResize. destruct (canvas w); reflexivity.
  - reflexivity.
Qed.

(** A frame on a mounted canvas with a context runs the loop body on every
    particle, with the center of the canvas as it is on that frame. *)
Lemma animate_physics (w : World Image) (cv : Canvas) :
  canvas w = Some cv -> context2d cv = true ->
  particles (fst (animate w))
  = map (physics (div (ofZ (width cv)) (ofZ 2)) (div (ofZ (height cv)) (ofZ 2))
                 (radiusRef w) (smooth (targetRef w) (currentRef w)))
        (particles w).
Proof.
  intros Hcv Hctx. unfold animate. rewrite Hcv, Hctx. reflexivity.
Qed.

(** The draw pass follows the array: in a set made of two parts, every
    draw call of the second part comes after those of the first. *)
Lemma render_in_array_order (first second : list (Particle num)) :
  flat_map render (first ++ second) = flat_map render first ++ flat_map render second.
Proof. apply flat_map_app. Qed.

(** C2. Whatever frames, resizes and target writes an installed particle
    set goes through, every particle keeps the originX, originY, color, size
    and density it was created with; the frame assigns only x, y, vx and
    vy. The home, center + origin, moves with the center alone. *)
Theorem created_fields_immutable (es : list (Event num)) (w : World Image) :
  map created (particles (run es w)) = map created (particles w) /\
  (forall cX cY cur p (c : num),
     homeX c (physics cX cY (radiusRef w) cur p) = add c (originX p) /\
     homeY c (physics cX cY (radiusRef w) cur p) = add c (originY p)).
Proof.
  split.
  - revert w. induction es as [| e es IH]; intros w; [reflexivity |].
    cbn [run fold_left]. fold (run es (handle w e)).
    rewrite IH. apply handle_created.
  - intros cX cY cur p c.
    pose proof (physics_created cX cY (radiusRef w) cur p) as Hc.
    unfold created in Hc. unfold homeX, homeY.
    injection Hc as -> -> _ _ _. split; reflexivity.
Qed.

End Immutability.
(** ** Properties of the sampler *)

Section StrideProperties.
Local Open Scope Z_scope.







End StrideProperties.

Section SamplerProperties.
Context {num : Type} `{JsMath num}.
Variable Image : Type.
Variable imgWidth imgHeight : Image -> Z.
Variable getImageData : Image -> num -> num -> num -> num -> Z -> Z -> list Z.
Variable random : nat -> num.

Lemma ambientParticle_pushes (width height : Z) (s : @SamplerState num) :
  exists p, newParticles (snd (ambientParticle random width height s))
            = newParticles s ++ [p].
Proof.
  unfold ambientParticle, bind, mathRandom, push.
  cbn [calls newParticles snd].
  destruct (ltb _ _); eexists; reflexivity.
Qed.

Lemma times_pushes (n : nat) (body : @Sampler num unit) :
  (forall s, exists p, newParticles (snd (body s)) = newParticles s ++ [p]) ->
  forall s, exists l,
    newParticles (snd (times n body s)) = newParticles s ++ l /\ List.length l = n.
Proof.
  intros Hbody. induction n as [| n IH]; intros s.
  - exists []. cbn. rewrite app_nil_r. split; reflexivity.
  - cbn [times]. unfold bind. destruct (Hbody s) as [p Hp].
    destruct (body s) as [u s1]. cbn [snd] in Hp.
    destruct (IH s1) as (l & Hl & Hlen).
    exists (p :: l). rewrite Hl, Hp, <- app_assoc. cbn. split; [reflexivity | lia].
Qed.





Lemma ambientPhase_pushes (width height : Z) (s : @SamplerState num) :
  exists l,
    newParticles (snd (ambientPhase random width height s)) = newParticles s ++ l /\
    List.length l = Z.to_nat (ambientCount width height).
Proof.
  unfold ambientPhase. apply times_pushes. apply ambientParticle_pushes.
Qed.


(** C9, as the code has it. Without an offscreen context the call installs
    no particle set and draws no random number; the particle set, the
    canvas, both interaction points and the radius are as before. The one
    thing written is the remembered bitmap, which becomes the bitmap of the
    call. *)
Theorem sampling_without_context (img : Image) (width height : Z) (drawn : nat)
    (w : World (num:=num) Image) :
  let after := initParticles imgWidth imgHeight getImageData random
                             img width height false drawn w in
  particles (fst after) = particles w /\
  canvas (fst after) = canvas w /\
  targetRef (fst after) = targetRef w /\
  currentRef (fst after) = currentRef w /\
  radiusRef (fst after) = radiusRef w /\
  snd after = drawn /\
  imageRef (fst after) = Some img.
Proof. cbn. repeat split. Qed.

End SamplerProperties.

(** C9, as stated, fails: on a component that has no bitmap yet, a sampling
    call without an offscreen context leaves a state that differs from the
    prior one: it remembers the bitmap. *)
Lemma sampling_without_context_changes_state :
  fst sampleWithoutContext <> freshWorld /\
  imageRef freshWorld = None /\
  imageRef (fst sampleWithoutContext) = Some tt.
Proof.
  split; [| split; reflexivity].
  intros Heq. apply (f_equal (@imageRef R unit)) in Heq.
  cbn in Heq. discriminate Heq.
Qed.

Section AmbientCount.
Local Open Scope R_scope.
Variable random : nat -> R.

Lemma ambientCount_formula (width height : Z) :
  ambientCount (num:=R) width height =
  Z.min (Zfloor (Rtrigo1.PI * (0.45 * IZR (Z.min width height)) ^ 2 / 30)) 20000.
Proof.
  unfold ambientCount, universeRadiusOf.
  cbn [lit Qnum Qden ofZ mul div floor PI JsNumber_R JsMath_R].
  f_equal. f_equal.
  set (m := IZR (Z.min width height)).
  replace 0.45 with (45 / 100) by lra.
  unfold Rdiv. ring.
Qed.

Lemma ambientCount_nonneg (width height : Z) :
  (0 <= ambientCount (num:=R) width height)%Z.
Proof.
  rewrite ambientCount_formula. apply Z.min_glb; [| lia].
  apply Zfloor_lub.
  pose proof PI_RGT_0 as Hpi.
  set (u := 0.45 * IZR (Z.min width height)).
  assert (Hsq : 0 <= u ^ 2) by (simpl; nra).
  assert (Hprod : 0 <= Rtrigo1.PI * u ^ 2) by nra.
  lra.
Qed.

(** C7. On a canvas of width W and height H the sampler generates
    min (floor (pi * (0.45 * min W H)^2 / 30), 20000) ambient particles. *)
Theorem ambient_particle_count (width height : Z) (drawn : nat) :
  Z.of_nat (List.length
    (newParticles (snd (ambientPhase random width height (mkSamplerState drawn [])))))
  = Z.min (Zfloor (Rtrigo1.PI * (0.45 * IZR (Z.min width height)) ^ 2 / 30)) 20000.
Proof.
  destruct (ambientPhase_pushes random width height (mkSamplerState drawn []))
    as (l & Hl & Hlen).
  rewrite Hl. cbn [newParticles app]. rewrite Hlen.
  rewrite Z2Nat.id by apply ambientCount_nonneg.
  apply ambientCount_formula.
Qed.

End AmbientCount.

(** ** Settling without interaction point *)

Section Settling.
Local Open Scope R_scope.
Variables cX cY : R.







Variable r : R.
Hypothesis r_nonneg : 0 <= r.





End Settling.

Section SettlingExamples.
Local Open Scope R_scope.



End SettlingExamples.

(** In binary64 a particle that starts exactly on the off-screen position
    never comes home either: one frame makes its position and velocity NaN,
    and they stay NaN. *)
Lemma idle_nan_forever (n : nat) :
  Nat.iter (S n) (physics (num:=float) (ofZ 400) (ofZ 300) (ofZ 320) nullPoint) atSentinel
  = lostParticle.
Proof.
  induction n as [| n IH].
  - vm_compute. reflexivity.
  - change (Nat.iter (S (S n)) ?f ?p) with (f (Nat.iter (S n) f p)).
    rewrite IH. vm_compute. reflexivity.
Qed.

(** ** Further properties of the frame loop *)

Section SmoothingProperties.
Local Open Scope R_scope.

Lemma smooth_both (tx ty cx cy : R) :
  smooth (mkPoint (Some tx) (Some ty)) (mkPoint (Some cx) (Some cy))
  = mkPoint (Some (tx + (cx - tx) * 0.85)) (Some (ty + (cy - ty) * 0.85)).
Proof.
  cbn [smooth ptX ptY toNumber lerp smoothFactor lit Qnum Qden
       add sub mul div ofZ JsNumber_R].
  f_equal; f_equal; lra.
Qed.

Lemma smoothFrames_formula (tx ty cx cy : R) (n : nat) :
  smoothFrames (mkPoint (Some tx) (Some ty)) n (mkPoint (Some cx) (Some cy))
  = mkPoint (Some (tx + (cx - tx) * 0.85 ^ n)) (Some (ty + (cy - ty) * 0.85 ^ n)).
Proof.
  unfold smoothFrames. induction n as [| n IH].
  - change (Nat.iter 0 ?f ?c) with c. rewrite pow_O. f_equal; f_equal; lra.
  - change (Nat.iter (S n) ?f ?c) with (f (Nat.iter n f c)).
    rewrite IH, smooth_both. rewrite <- !tech_pow_Rmult. f_equal; f_equal; ring.
Qed.

(** X1. Under a target that stays at (tx, ty), a current point (cx, cy) is,
    after n frames, at target + (current - target) * 0.85^n on each axis. *)
Theorem smoothing_closed_form (tx ty cx cy : R) (n : nat) :
  smoothFrames (mkPoint (Some tx) (Some ty)) n (mkPoint (Some cx) (Some cy))
  = mkPoint (Some (tx + (cx - tx) * 0.85 ^ n)) (Some (ty + (cy - ty) * 0.85 ^ n)).
Proof.
  pose proof (smoothFrames_formula tx ty cx cy n) as Hformula.
  rewrite Hformula. reflexivity.
Qed.



(** X5. A particle strictly inside the radius of a pointer (with non-zero
    coordinates), and not on it, is pushed straight away from the pointer:
    before damping its velocity changes by -k * (pointer - position) with
    k >= 0, a change of length ((320 - d) / 320) * density * 2. *)
Theorem repulsion_pushes_away (cX cY cx cy : R) (p : Particle R) :
  cx <> 0 -> cy <> 0 -> 0 <= density p ->
  0 < distance (mkPoint (Some cx) (Some cy)) p < 320 ->
  exists k,
    0 <= k /\
    k * distance (mkPoint (Some cx) (Some cy)) p
      = (320 - distance (mkPoint (Some cx) (Some cy)) p) / 320 * density p * 2 /\
    distance (mkPoint (Some cx) (Some cy)) p
      = R_sqrt.sqrt ((cx - x p) * (cx - x p) + (cy - y p) * (cy - y p)) /\
    vx (physics cX cY 320 (mkPoint (Some cx) (Some cy)) p)
      = (vx p - k * (cx - x p)) * 0.90 /\
    vy (physics cX cY 320 (mkPoint (Some cx) (Some cy)) p)
      = (vy p - k * (cy - y p)) * 0.90.
Proof.
  intros Hcx Hcy Hdens [Hpos Hnear].
  set (cur := mkPoint (Some cx) (Some cy)) in *.
  assert (HeX : effectiveX cur = cx).
  { unfold cur. cbn [effectiveX orElse ptX toBoolean JsNumber_R].
    unfold Reqb. destruct (Req_dec_T cx 0); [contradiction | reflexivity]. }
  assert (HeY : effectiveY cur = cy).
  { unfold cur. cbn [effectiveY orElse ptY toBoolean JsNumber_R].
    unfold Reqb. destruct (Req_dec_T cy 0); [contradiction | reflexivity]. }
  assert (Hdx : dxTo cur p = cx - x p) by (unfold dxTo; rewrite HeX; reflexivity).
  assert (Hdy : dyTo cur p = cy - y p) by (unfold dyTo; rewrite HeY; reflexivity).
  set (d := distance cur p) in *.
  exists ((320 - d) / 320 * density p * 2 / d).
  split; [| split; [| split; [| split]]].
  - apply Rmult_le_pos; [| left; apply Rinv_0_lt_compat; exact Hpos].
    apply Rmult_le_pos; [| lra].
    apply Rmult_le_pos; [| exact Hdens].
    apply Rmult_le_pos; [lra | left; apply Rinv_0_lt_compat; lra].
  - field. lra.
  - unfold d, distance. rewrite Hdx, Hdy. reflexivity.
  - change 320 with interactionRadius at 1.
    rewrite physics_inside by (fold d; unfold interactionRadius; lra).
    unfold repelStep, integrate, damping, interactionRadius. cbn [vx].
    fold d. rewrite Hdx. f_equal. f_equal. field. lra.
  - change 320 with interactionRadius at 1.
    rewrite physics_inside by (fold d; unfold interactionRadius; lra).
    unfold repelStep, integrate, damping, interactionRadius. cbn [vy].
    fold d. rewrite Hdy. f_equal. f_equal. field. lra.
Qed.

End SmoothingProperties.

Section WorldProperties.
Context {num : Type} `{JsNumber num} {Image : Type}.

Lemma smooth_asUnit (target current : Point num) : asUnit (smooth target current) = true.
Proof.
  unfold smooth, asUnit.
  destruct (ptX target), (ptY target), (ptX current); reflexivity.
Qed.

Lemma handle_asUnit (w : World Image) (e : Event num) :
  asUnit (currentRef w) = true -> asUnit (currentRef (handle w e)) = true.
Proof.
  intros Hw. destruct e as [| iw ih | tx ty]; cbn [handle].
  - unfold animate. destruct (canvas w) as [cv |]; [| exact Hw].
    destruct (context2d cv); cbn [negb fst currentRef]; [apply smooth_asUnit | exact Hw].
  - unfold handleResize. destruct (canvas w); exact Hw.
  - exact Hw.
Qed.

(** X3. The smoothed point is null on both axes or on neither, and stays
    so through any frames, resizes and target writes, whatever the
    callers write into the target (a half-null target included). *)
Theorem current_point_is_a_unit (es : list (Event num)) (w : World Image) :
  asUnit (currentRef w) = true -> asUnit (currentRef (run es w)) = true.
Proof.
  revert w. induction es as [| e es IH]; intros w Hw; [exact Hw |].
  cbn [run fold_left]. fold (run es (handle w e)).
  apply IH. apply handle_asUnit. exact Hw.
Qed.

Lemma handle_kept (w : World Image) (e : Event num) :
  radiusRef (handle w e) = radiusRef w /\
  imageRef (handle w e) = imageRef w /\
  List.length (particles (handle w e)) = List.length (particles w) /\
  (canvas (handle w e) = None <-> canvas w = None).
Proof.
  destruct e as [| iw ih | tx ty]; cbn [handle].
  - unfold animate. destruct (canvas w) as [cv |] eqn:Hcv.
    + destruct (context2d cv); cbn [negb fst radiusRef imageRef particles canvas];
        rewrite ?length_map, ?Hcv; repeat split; auto.
    + cbn [fst]. rewrite Hcv. repeat split; auto.
  - unfold handleResize. destruct (canvas w) as [cv |] eqn:Hcv.
    + cbn [radiusRef imageRef particles canvas]. repeat split; auto; discriminate.
    + rewrite Hcv. repeat split; auto.
  - cbn. repeat split; auto.
Qed.

(** X4. No frame, resize or target write touches the interaction radius,
    the remembered bitmap or the number of installed particles, or mounts or
    unmounts the canvas; from mount on, the radius is the 320 it was
    initialised with. *)
Theorem frames_keep_the_setup (es : list (Event num)) (w : World Image)
    (cv : option Canvas) :
  (radiusRef (run es w) = radiusRef w /\
   imageRef (run es w) = imageRef w /\
   List.length (particles (run es w)) = List.length (particles w) /\
   (canvas (run es w) = None <-> canvas w = None)) /\
  radiusRef (run es (mount (Image:=Image) cv)) = ofZ 320.
Proof.
  assert (Hrun : forall es' (w' : World Image),
             radiusRef (run es' w') = radiusRef w' /\
             imageRef (run es' w') = imageRef w' /\
             List.length (particles (run es' w')) = List.length (particles w') /\
             (canvas (run es' w') = None <-> canvas w' = None)).
  { induction es' as [| e es' IH]; intros w'.
    - cbn. repeat split; auto.
    - cbn [run fold_left]. fold (run es' (handle w' e)).
      destruct (IH (handle w' e)) as (Hr & Hi & Hl & Hc).
      destruct (handle_kept w' e) as (Hr' & Hi' & Hl' & Hc').
      rewrite Hr, Hi, Hl, Hc, Hr', Hi', Hl', Hc'. repeat split; auto. }
  split; [apply Hrun |].
  destruct (Hrun es (mount (Image:=Image) cv)) as (Hr & _). rewrite Hr. reflexivity.
Qed.






End WorldProperties.

Section WorldWitnesses.
Local Open Scope R_scope.

Lemma current_point_is_a_unit_witness :
  asUnit (currentRef (run [SetTarget (Some 5) None; Frame; SetTarget (Some 5) (Some 7); Frame]
                          freshWorld)) = true.
Proof. apply current_point_is_a_unit. reflexivity. Defined.



End WorldWitnesses.

(** ** Further properties of the sampler *)

Section StrideCount.
Local Open Scope Z_scope.




End StrideCount.

Section SamplerStructure.
Context {num : Type} `{JsMath num}.
Variable Image : Type.
Variable imgWidth imgHeight : Image -> Z.
Variable getImageData : Image -> num -> num -> num -> num -> Z -> Z -> list Z.





End SamplerStructure.

Section SamplerAccounting.
Context {num : Type} `{JsMath num}.
Variable Image : Type.
Variable imgWidth imgHeight : Image -> Z.
Variable getImageData : Image -> num -> num -> num -> num -> Z -> Z -> list Z.
Variable random : nat -> num.











End SamplerAccounting.

Section SampledParticles.
Local Open Scope R_scope.
Variable Image : Type.
Variable imgWidth imgHeight : Image -> Z.
Variable getImageData : Image -> R -> R -> R -> R -> Z -> Z -> list Z.
Variable random : nat -> R.





Hypothesis random_unit : forall n, 0 <= random n < 1.








End SampledParticles.

Section SampledWitnesses.
Local Open Scope R_scope.





End SampledWitnesses.

Section PlacementProperties.
Local Open Scope R_scope.
Variable Image : Type.
Variable imgWidth imgHeight : Image -> Z.

(** X9. A bitmap of positive size is drawn with its aspect ratio kept, no
    wider than twice the canvas and no taller than twice the canvas, and as
    large as those two limits allow: one of them is met exactly. *)
Theorem placement_fits_twice_the_canvas (img : Image) (width height : Z) :
  (0 < imgWidth img)%Z -> (0 < imgHeight img)%Z -> (0 <= width)%Z -> (0 <= height)%Z ->
  let '(startX, startY, drawWidth, drawHeight) :=
    placement (num:=R) imgWidth imgHeight img width height in
  drawWidth <= 2 * IZR width /\
  drawHeight <= 2 * IZR height /\
  drawWidth * IZR (imgHeight img) = drawHeight * IZR (imgWidth img) /\
  (drawWidth = 2 * IZR width \/ drawHeight = 2 * IZR height) /\
  startX = (IZR width - drawWidth) / 1.8 /\
  startY = (IZR height - drawHeight) / 2.5.
Proof.
  intros Hiw Hih Hw Hh.
  apply IZR_lt in Hiw, Hih. apply IZR_le in Hw, Hh.
  unfold placement.
  cbn [lit Qnum Qden add sub mul div ofZ ltb JsNumber_R].
  set (iw := IZR (imgWidth img)) in *. set (ih := IZR (imgHeight img)) in *.
  set (W := IZR width) in *. set (Ht := IZR height) in *.
  assert (Hratio : 0 < iw / ih) by (apply Rdiv_lt_0_compat; assumption).
  unfold Rltb. destruct (Rlt_dec (Ht * 2) (W * 2 / (iw / ih))) as [Htall | Hfits].
  - assert (Hcap : Ht * 2 * (iw / ih) < W * 2).
    { apply (Rmult_lt_compat_r (iw / ih)) in Htall; [| exact Hratio].
      replace (W * 2 / (iw / ih) * (iw / ih)) with (W * 2) in Htall
        by (field; split; lra).
      exact Htall. }
    repeat split; try lra. field. lra.
  - assert (Hfit : W * 2 / (iw / ih) <= Ht * 2) by lra.
    repeat split; try lra. field. split; lra.
Qed.

End PlacementProperties.

Section PlacementWitness.
Local Open Scope R_scope.

Lemma placement_fits_twice_the_canvas_witness :
  let '(startX, startY, drawWidth, drawHeight) :=
    placement (num:=R) (fun _ : unit => 500%Z) (fun _ => 500%Z) tt 800 600 in
  drawWidth <= 2 * IZR 800 /\
  drawHeight <= 2 * IZR 600 /\
  drawWidth * IZR 500 = drawHeight * IZR 500 /\
  (drawWidth = 2 * IZR 800 \/ drawHeight = 2 * IZR 600) /\
  startX = (IZR 800 - drawWidth) / 1.8 /\
  startY = (IZR 600 - drawHeight) / 2.5.
Proof.
  apply (@placement_fits_twice_the_canvas unit (fun _ => 500%Z) (fun _ => 500%Z) tt 800 600);
    lia.
Defined.

End PlacementWitness.

(** ** The snapshot name *)

Section SnapshotProperties.

Lemma occurrences_app (c : ascii) (a b : string) :
  occurrences c (a ++ b) = (occurrences c a + occurrences c b)%nat.
Proof.
  induction a as [| c' a IH]; [reflexivity |].
  cbn [append occurrences]. rewrite IH. lia.
Qed.

Lemma length_append (a b : string) :
  String.length (a ++ b) = (String.length a + String.length b)%nat.
Proof.
  induction a as [| c a IH]; [reflexivity |].
  cbn [append String.length]. rewrite IH. reflexivity.
Qed.

Lemma replaceColonDot_clean (s : string) :
  occurrences ":" (replaceColonDot s) = 0%nat /\
  occurrences "." (replaceColonDot s) = 0%nat /\
  String.length (replaceColonDot s) = String.length s.
Proof.
  induction s as [| c s (IHc & IHd & IHl)]; [repeat split |].
  cbn [replaceColonDot occurrences String.length]. rewrite IHc, IHd, IHl.
  destruct (Ascii.eqb c ":") eqn:Hc; cbn [orb].
  - repeat split.
  - destruct (Ascii.eqb c ".") eqn:Hd.
    + repeat split.
    + rewrite Hc, Hd. repeat split.
Qed.

(** X18. Whatever text the clock gives, the snapshot is offered under a
    name without any colon and with a single dot, the one of its ".png"
    ending; the name is the text with 22 characters added. Without a canvas
    nothing is offered. *)
Theorem snapshot_name_is_safe (iso dataURL : string) (cv : Canvas) :
  downloadSnapshot None iso dataURL = None /\
  downloadSnapshot (Some cv) iso dataURL = Some (snapshotName iso, dataURL) /\
  occurrences ":" (snapshotName iso) = 0%nat /\
  occurrences "." (snapshotName iso) = 1%nat /\
  snapshotName iso = (snapshotStem iso ++ ".png")%string /\
  occurrences "." (snapshotStem iso) = 0%nat /\
  String.length (snapshotName iso) = (String.length iso + 22)%nat.
Proof.
  destruct (replaceColonDot_clean iso) as (Hc & Hd & Hl).
  unfold snapshotName, snapshotStem.
  rewrite !occurrences_app, !length_append, Hc, Hd, Hl.
  repeat split. cbn. lia.
Qed.

End SnapshotProperties.

(** ** The hand tracker and the canvas *)

Section HandProperties.
Local Open Scope R_scope.

(** X19. A fingertip (landmark 8 of the first hand) with normalised
    coordinates in [0, 1] is reported at a point of the window, mirrored
    left to right: x = window width - tip.x * window width, y = tip.y *
    window height; and the next run is requested. *)
Theorem fingertip_maps_into_window (videoWidth videoHeight innerWidth innerHeight : Z)
    (hand : list (Landmark R)) (others : list (list (Landmark R))) (tip : Landmark R) :
  (0 < videoWidth)%Z -> (0 < videoHeight)%Z ->
  (0 <= innerWidth)%Z -> (0 <= innerHeight)%Z ->
  nth_error hand 8 = Some tip ->
  0 <= lmX tip <= 1 -> 0 <= lmY tip <= 1 ->
  exists hx hy,
    predictWebcam true videoWidth videoHeight (Some (hand :: others))
                  innerWidth innerHeight
      = (OnHandMove (Some hx) (Some hy), true) /\
    hx = IZR innerWidth - lmX tip * IZR innerWidth /\
    hy = lmY tip * IZR innerHeight /\
    0 <= hx <= IZR innerWidth /\ 0 <= hy <= IZR innerHeight.
Proof.
  intros Hvw Hvh Hw Hh Htip Hx Hy.
  apply IZR_le in Hw, Hh.
  unfold predictWebcam. cbn [negb].
  apply Z.ltb_lt in Hvw, Hvh. rewrite Hvw, Hvh. cbn [andb]. rewrite Htip.
  cbn [add sub mul ofZ JsNumber_R].
  eexists. eexists. split; [reflexivity |].
  split; [ring |]. split; [reflexivity |]. split; nra.
Qed.

Lemma fingertip_maps_into_window_witness :
  exists hx hy,
    predictWebcam true 640 480
      (Some [repeat (mkLandmark (1 / 4) (1 / 2)) 21]) 800 600
      = (OnHandMove (Some hx) (Some hy), true) /\
    hx = IZR 800 - 1 / 4 * IZR 800 /\
    hy = 1 / 2 * IZR 600 /\
    0 <= hx <= IZR 800 /\ 0 <= hy <= IZR 600.
Proof.
  apply (@fingertip_maps_into_window 640 480 800 600
           (repeat (mkLandmark (1 / 4) (1 / 2)) 21) [] (mkLandmark (1 / 4) (1 / 2)));
    try lia; try reflexivity; cbn [lmX lmY]; lra.
Defined.

End HandProperties.

Section HandToCanvas.
Context {num : Type} `{JsNumber num} {Image : Type}.


End HandToCanvas.

Section HandToCanvasWitness.


End HandToCanvasWitness.

(** ** Resizing and re-sampling *)

Section DebounceProperties.
Context {num : Type} `{JsMath num}.
Variable Image : Type.
Variable imgWidth imgHeight : Image -> Z.
Variable getImageData : Image -> num -> num -> num -> num -> Z -> Z -> list Z.
Variable random : nat -> num.

Lemma initParticles_canvas (img : Image) (width height : Z) (offscreen : bool)
    (d : nat) (w : World (num:=num) Image) :
  canvas (fst (initParticles imgWidth imgHeight getImageData random
                             img width height offscreen d w)) = canvas w.
Proof.
  unfold initParticles. destruct offscreen; cbn [negb]; [| reflexivity].
  destruct (bind _ _ _) as [u s]. reflexivity.
Qed.

Lemma initParticles_particles (img : Image) (width height : Z) (d : nat)
    (w1 w2 : World (num:=num) Image) :
  particles (fst (initParticles imgWidth imgHeight getImageData random
                                img width height true d w1))
  = particles (fst (initParticles imgWidth imgHeight getImageData random
                                  img width height true d w2)).
Proof.
  unfold initParticles. cbn [negb].
  destruct (bind _ _ _) as [u s]. reflexivity.
Qed.

Lemma resizeTimeout_canvas (offscreen : bool) (d : nat) (w : World (num:=num) Image) :
  canvas (fst (resizeTimeout imgWidth imgHeight getImageData random offscreen d w))
  = canvas w.
Proof.
  unfold resizeTimeout. destruct (imageRef w) as [img |]; [| reflexivity].
  destruct (canvas w) as [cv |] eqn:Hcv; [| cbn; exact Hcv].
  rewrite initParticles_canvas. exact Hcv.
Qed.

Lemma onResize_arms (innerWidth innerHeight : Z) (c : @Component num Image) :
  debounced c ->
  armed (timers (onResize innerWidth innerHeight c)) = [(nextId (timers c), 200%Z)] /\
  resizeTimeoutRef (onResize innerWidth innerHeight c) = Some (nextId (timers c)) /\
  nextId (timers (onResize innerWidth innerHeight c)) = S (nextId (timers c)) /\
  canvas (world (onResize innerWidth innerHeight c)) <> None.
Proof.
  intros (Hcv & Hid & Harm). unfold onResize.
  destruct (canvas (world c)) as [cv |] eqn:Hcanvas; [| contradiction].
  assert (Hcleared :
    armed (match resizeTimeoutRef c with
           | Some id => if Nat.eqb id 0 then timers c else clearTimeout id (timers c)
           | None => timers c
           end) = [] /\
    nextId (match resizeTimeoutRef c with
            | Some id => if Nat.eqb id 0 then timers c else clearTimeout id (timers c)
            | None => timers c
            end) = nextId (timers c)).
  { destruct Harm as [Hnone | (id & Hne & Href & Hone)].
    - destruct (resizeTimeoutRef c) as [id |]; [| split; [exact Hnone | reflexivity]].
      destruct (Nat.eqb id 0); [split; [exact Hnone | reflexivity] |].
      unfold clearTimeout. rewrite Hnone. split; reflexivity.
    - rewrite Href. apply Nat.eqb_neq in Hne. rewrite Hne.
      unfold clearTimeout. rewrite Hone. cbn [filter fst negb].
      rewrite Nat.eqb_refl. split; reflexivity. }
  destruct Hcleared as [Hempty Hnext].
  unfold setTimeout. rewrite Hempty, Hnext.
  cbn [timers resizeTimeoutRef world armed nextId app].
  repeat split. unfold handleResize. rewrite Hcanvas. cbn. discriminate.
Qed.

Lemma happen_debounced (c : @Component num Image) (h : Happening (num:=num)) :
  debounced c -> debounced (happen imgWidth imgHeight getImageData random c h).
Proof.
  intros Hc. destruct h as [iw ih | id offscreen | e]; cbn [happen]; unfold debounced.
  - destruct (onResize_arms iw ih Hc) as (Harmed & Href & Hnext & Hcv).
    destruct Hc as (_ & Hid & _).
    split; [exact Hcv | split; [lia |]].
    right. exists (nextId (timers c)). repeat split; try assumption. lia.
  - destruct Hc as (Hcv & Hid & Harm). unfold onTimer.
    destruct (isArmed id (timers c)) eqn:Hfires; [| repeat split; assumption].
    pose proof (resizeTimeout_canvas offscreen (drawn c) (world c)) as Hkeep.
    destruct (resizeTimeout imgWidth imgHeight getImageData random offscreen
                            (drawn c) (world c)) as [w' d'].
    cbn [fst] in Hkeep. cbn [world timers resizeTimeoutRef].
    split; [rewrite Hkeep; exact Hcv | split; [exact Hid |]].
    left. destruct Harm as [Hnone | (id' & Hne & Href & Hone)].
    + unfold isArmed in Hfires. rewrite Hnone in Hfires. discriminate.
    + unfold isArmed in Hfires. rewrite Hone in Hfires.
      cbn [existsb fst orb] in Hfires. rewrite Bool.orb_false_r in Hfires.
      unfold clearTimeout. rewrite Hone. cbn [filter fst armed]. rewrite Hfires.
      reflexivity.
  - destruct Hc as (Hcv & Hid & Harm). cbn [world timers resizeTimeoutRef].
    destruct (handle_kept (world c) e) as (_ & _ & _ & Hcanvas).
    split; [| split; assumption].
    intros Hnone. apply Hcv. apply Hcanvas. exact Hnone.
Qed.

Lemma mountResize_debounced (cv : Canvas) (innerWidth innerHeight : Z) :
  debounced (mountResize (Image:=Image) (Some cv) innerWidth innerHeight).
Proof.
  unfold mountResize.
  assert (Hstart : debounced (mkComponent (mount (Image:=Image) (Some cv)) 0 None
                                          (mkTimers [] 1))).
  { split; [discriminate | split; [cbn; lia | left; reflexivity]]. }
  apply (happen_debounced (WindowResize innerWidth innerHeight) Hstart).
Qed.

Lemma happenAll_debounced (hs : list (Happening (num:=num))) (c : @Component num Image) :
  debounced c -> debounced (happenAll imgWidth imgHeight getImageData random hs c).
Proof.
  revert c. induction hs as [| h hs IH]; intros c Hc; [exact Hc |].
  cbn [happenAll fold_left].
  apply IH. apply happen_debounced. exact Hc.
Qed.

(** X17. Resizes are debounced. Whatever resizes, timer callbacks, frames
    and target writes a mounted canvas has been through, at most one
    re-sampling timer is armed, the one the ref holds, with a delay of
    200 ms; and a further resize leaves exactly one armed timer, a new one,
    so that of a burst of resizes only the last can lead to a
    re-sampling. *)
Theorem resize_is_debounced (cv : Canvas) (innerWidth innerHeight : Z)
    (hs : list (Happening (num:=num))) (laterWidth laterHeight : Z) :
  let c := happenAll imgWidth imgHeight getImageData random hs (mountResize (Some cv) innerWidth innerHeight) in
  (armed (timers c) = [] \/
   exists id, resizeTimeoutRef c = Some id /\ armed (timers c) = [(id, 200%Z)]) /\
  armed (timers (onResize laterWidth laterHeight c)) = [(nextId (timers c), 200%Z)] /\
  resizeTimeoutRef (onResize laterWidth laterHeight c) = Some (nextId (timers c)) /\
  isArmed (nextId (timers c)) (timers c) = false.
Proof.
  cbn zeta.
  pose proof (happenAll_debounced hs (mountResize_debounced cv innerWidth innerHeight))
    as Hc.
  destruct (onResize_arms laterWidth laterHeight Hc) as (Harmed & Href & _ & _).
  split; [| split; [exact Harmed | split; [exact Href |]]].
  - destruct Hc as (_ & _ & [Hnone | (id & _ & Hid & Hone)]);
      [left; exact Hnone | right; exists id; split; assumption].
  - pose proof (happenAll_debounced
                  (hs ++ [WindowResize laterWidth laterHeight])
                  (mountResize_debounced cv innerWidth innerHeight)) as Hnext.
    unfold happenAll in Hnext. rewrite fold_left_app in Hnext.
    cbn [fold_left happen] in Hnext.
    fold (happenAll imgWidth imgHeight getImageData random hs (mountResize (Some cv) innerWidth innerHeight)) in Hnext.
    set (c := happenAll imgWidth imgHeight getImageData random hs (mountResize (Some cv) innerWidth innerHeight)) in *.
    destruct Hc as (_ & Hpos & [Hnone | (id & Hne & Hid & Hone)]).
    + unfold isArmed. rewrite Hnone. reflexivity.
    + unfold isArmed. rewrite Hone. cbn [existsb fst orb].
      rewrite Bool.orb_false_r. apply Nat.eqb_neq.
      intros Heq. subst id.
      (* the armed timer would be the one the next resize hands out *)
      clear Hnext Harmed Href.
      assert (Hlt : forall hs' c0,
                 debounced c0 ->
                 Forall (fun e => (fst e < nextId (timers c0))%nat) (armed (timers c0)) ->
                 Forall (fun e => (fst e < nextId (timers (happenAll imgWidth imgHeight getImageData random hs' c0)))%nat)
                        (armed (timers (happenAll imgWidth imgHeight getImageData random hs' c0)))).
      { induction hs' as [| h hs' IH]; intros c0 Hd0 Hall; [exact Hall |].
        cbn [happenAll fold_left]. apply IH; [apply happen_debounced; exact Hd0 |].
        destruct h as [iw ih | id' offscreen | e]; cbn [happen].
        - destruct (onResize_arms iw ih Hd0) as (Ha & _ & Hn & _).
          rewrite Ha, Hn. constructor; [cbn; lia | constructor].
        - unfold onTimer. destruct (isArmed id' (timers c0)); [| exact Hall].
          destruct (resizeTimeout _ _ _ _ _ _ _) as [w' d'].
          cbn [timers]. unfold clearTimeout. cbn [armed nextId].
          apply Forall_forall. intros e He. apply filter_In in He.
          destruct He as [He _]. revert e He. apply Forall_forall. exact Hall.
        - exact Hall. }
      assert (Hstart : Forall (fun e => (fst e < nextId
                                 (timers (mountResize (Image:=Image) (Some cv)
                                                      innerWidth innerHeight)))%nat)
                              (armed (timers (mountResize (Image:=Image) (Some cv)
                                                          innerWidth innerHeight)))).
      { cbn. constructor; [cbn; lia | constructor]. }
      pose proof (Hlt hs _ (mountResize_debounced cv innerWidth innerHeight) Hstart) as Hall.
      fold c in Hall. rewrite Hone in Hall.
      apply Forall_inv in Hall. cbn in Hall. lia.
Qed.

Lemma happen_without_bitmap (c : @Component num Image) (h : Happening (num:=num)) :
  imageRef (world c) = None /\ particles (world c) = [] /\ drawn c = 0%nat ->
  imageRef (world (happen imgWidth imgHeight getImageData random c h)) = None /\ particles (world (happen imgWidth imgHeight getImageData random c h)) = [] /\
  drawn (happen imgWidth imgHeight getImageData random c h) = 0%nat.
Proof.
  intros (Himg & Hps & Hd). destruct h as [iw ih | id offscreen | e]; cbn [happen].
  - unfold onResize. destruct (canvas (world c)) as [cv |] eqn:Hcv;
      [| repeat split; assumption].
    unfold setTimeout. cbn [world drawn]. unfold handleResize. rewrite Hcv.
    cbn [imageRef particles]. repeat split; assumption.
  - unfold onTimer. destruct (isArmed id (timers c)); [| repeat split; assumption].
    unfold resizeTimeout. rewrite Himg. cbn [world drawn]. repeat split; assumption.
  - cbn [world drawn].
    destruct (handle_kept (world c) e) as (_ & Hi & Hl & _).
    rewrite Hi. split; [exact Himg | split; [| exact Hd]].
    rewrite Hps in Hl. cbn in Hl. apply length_zero_iff_nil. exact Hl.
Qed.

(** X21. Until a bitmap has loaded, nothing is sampled: through any
    resizes, timer callbacks, frames and target writes the particle set
    stays empty, no bitmap is remembered and no random number is drawn. *)
Theorem nothing_sampled_before_a_bitmap (cv : option Canvas) (innerWidth innerHeight : Z)
    (hs : list (Happening (num:=num))) :
  let c := happenAll imgWidth imgHeight getImageData random hs (mountResize cv innerWidth innerHeight) in
  particles (world c) = [] /\ imageRef (world c) = None /\ drawn c = 0%nat.
Proof.
  cbn zeta.
  assert (Hall : forall hs' (c0 : @Component num Image),
             imageRef (world c0) = None /\ particles (world c0) = [] /\ drawn c0 = 0%nat ->
             imageRef (world (happenAll imgWidth imgHeight getImageData random hs' c0)) = None /\
             particles (world (happenAll imgWidth imgHeight getImageData random hs' c0)) = [] /\ drawn (happenAll imgWidth imgHeight getImageData random hs' c0) = 0%nat).
  { induction hs' as [| h hs' IH]; intros c0 Hc0; [exact Hc0 |].
    cbn [happenAll fold_left]. apply IH. apply happen_without_bitmap. exact Hc0. }
  assert (Hstart : imageRef (world (mountResize (Image:=Image) cv innerWidth innerHeight))
                     = None /\
                   particles (world (mountResize (Image:=Image) cv innerWidth innerHeight))
                     = [] /\
                   drawn (mountResize (Image:=Image) cv innerWidth innerHeight) = 0%nat).
  { apply (happen_without_bitmap (mkComponent (mount (Image:=Image) cv) 0 None
                                              (mkTimers [] 1))
                                 (WindowResize innerWidth innerHeight)).
    repeat split. }
  destruct (Hall hs _ Hstart) as (Hi & Hp & Hd). repeat split; assumption.
Qed.

(** X22. A sampling that failed for want of an offscreen context is made
    good by the next resize: the bitmap was remembered, so when the resize
    timer runs with a context, the set installed is the one a sampling of
    that bitmap at the new size installs. *)
Theorem failed_sampling_is_retried (img : Image) (cv : Canvas)
    (innerWidth innerHeight : Z) (d : nat) (w : World (num:=num) Image) :
  canvas w = Some cv ->
  let failed := onload imgWidth imgHeight getImageData random img false d w in
  let resized := handleResize innerWidth innerHeight (fst failed) in
  particles (fst failed) = particles w /\
  snd failed = d /\
  particles (fst (resizeTimeout imgWidth imgHeight getImageData random true
                                (snd failed) resized))
  = particles (fst (initParticles imgWidth imgHeight getImageData random
                                  img innerWidth innerHeight true d w)).
Proof.
  intros Hcv. cbn zeta. unfold onload. rewrite Hcv.
  assert (Hfail : initParticles imgWidth imgHeight getImageData random
                                img (width cv) (height cv) false d w
                  = (mkWorld (canvas w) (targetRef w) (currentRef w) (radiusRef w)
                             (particles w) (Some img), d)) by reflexivity.
  rewrite Hfail. cbn [fst snd particles].
  split; [reflexivity | split; [reflexivity |]].
  unfold handleResize. cbn [canvas]. rewrite Hcv.
  unfold resizeTimeout. cbn [imageRef canvas width height].
  apply initParticles_particles.
Qed.

End DebounceProperties.

Section DebounceWitness.

Lemma failed_sampling_is_retried_witness :
  particles (fst (resizeTimeout (num:=R) (fun _ : unit => 500%Z) (fun _ => 500%Z)
                    (fun _ _ _ _ _ _ _ => []) (fun _ => 0%R) true
                    (snd (onload (fun _ : unit => 500%Z) (fun _ => 500%Z)
                            (fun _ _ _ _ _ _ _ => []) (fun _ => 0%R) tt false 0 freshWorld))
                    (handleResize 1024 768
                       (fst (onload (fun _ : unit => 500%Z) (fun _ => 500%Z)
                               (fun _ _ _ _ _ _ _ => []) (fun _ => 0%R) tt false 0
                               freshWorld)))))
  = particles (fst (initParticles (fun _ : unit => 500%Z) (fun _ => 500%Z)
                      (fun _ _ _ _ _ _ _ => []) (fun _ => 0%R)
                      tt 1024 768 true 0 freshWorld)).
Proof.
  apply (@failed_sampling_is_retried R _ _ unit (fun _ => 500%Z) (fun _ => 500%Z)
           (fun _ _ _ _ _ _ _ => []) (fun _ => 0%R) tt (mkCanvas 800 600 true)
           1024 768 0 freshWorld).
  reflexivity.
Defined.

End DebounceWitness.

Section PointerReturn.
Context {num : Type} `{JsNumber num} {Image : Type}.



End PointerReturn.

Section PointerReturnWitness.
Local Open Scope R_scope.


End PointerReturnWitness.

Section RepulsionWitness.
Local Open Scope R_scope.

Lemma repulsion_pushes_away_witness :
  exists k,
    0 <= k /\
    k * distance (mkPoint (Some 400) (Some 300)) displacedParticle
      = (320 - distance (mkPoint (Some 400) (Some 300)) displacedParticle) / 320
        * density displacedParticle * 2 /\
    distance (mkPoint (Some 400) (Some 300)) displacedParticle
      = R_sqrt.sqrt ((400 - x displacedParticle) * (400 - x displacedParticle)
                     + (300 - y displacedParticle) * (300 - y displacedParticle)) /\
    vx (physics 400 300 320 (mkPoint (Some 400) (Some 300)) displacedParticle)
      = (vx displacedParticle - k * (400 - x displacedParticle)) * 0.90 /\
    vy (physics 400 300 320 (mkPoint (Some 400) (Some 300)) displacedParticle)
      = (vy displacedParticle - k * (300 - y displacedParticle)) * 0.90.
Proof.
  assert (Hd : distance (mkPoint (Some 400) (Some 300)) displacedParticle = 100).
  { unfold distance, dxTo, dyTo.
    cbn [effectiveX effectiveY orElse ptX ptY toBoolean x y displacedParticle
         add sub mul sqrt JsNumber_R].
    unfold Reqb. destruct (Req_dec_T 400 0) as [H400 | _]; [lra |].
    destruct (Req_dec_T 300 0) as [H300 | _]; [lra |]. cbn [negb].
    replace ((400 - 500) * (400 - 500) + (300 - 300) * (300 - 300)) with (100 * 100) by lra.
    apply sqrt_square. lra. }
  apply (@repulsion_pushes_away 400 300 400 300 displacedParticle).
  - lra.
  - lra.
  - cbn [density displacedParticle]. lra.
  - rewrite Hd. lra.
Defined.

End RepulsionWitness.
